(** * Todo API: a model of [src/api/main.py] and its contract

    The service keeps one table, [todos], behind seven HTTP routes.  Every
    handler opens a session of its own, runs its statements and commits
    before it returns, so a request is a function from the committed table
    to a response and the next committed table.  The table is a finite map
    from the primary key to the remaining columns; handlers are written in a
    small exception monad, since [get_todo_or_404] raises [HTTPException].

    Three layers: the handlers, as the source has them; [app], the routing
    around them (path parameter, status codes); and [service], which adds
    what the database driver does with an id it cannot bind.  Ids are
    Python integers, unbounded; the keys SQLite can hold are the signed
    64-bit ones ([fits_int64]). *)

From stdpp Require Import gmap strings list fin_maps sorting.

(** ** Storage schema *)

(** The columns of a [todos] row other than its primary key: [title] is
    [String, nullable=False], [description] is [String, nullable=True] and
    [completed] is [Boolean, nullable=False]. *)
Record columns := Columns {
  col_title : string;
  col_description : option string;
  col_completed : bool
}.

(** The table [todos]: [id] is the [Integer] primary key, so a table holds
    at most one row per id. *)
Abbreviation table := (gmap Z columns).

(** [TodoORM]: a row held by a session, with its key. *)
Record TodoORM := mkTodoORM {
  id : Z;
  title : string;
  description : option string;
  completed : bool
}.

Definition load (k : Z) (c : columns) : TodoORM :=
  {| id := k; title := col_title c; description := col_description c;
     completed := col_completed c |}.

(** What a flush writes for a session object: every column but the key. *)
Definition flush (t : TodoORM) : columns :=
  {| col_title := title t; col_description := description t;
     col_completed := completed t |}.

(** ** Pydantic schemas *)

(** [TodoCreate]: [title] is required, [description] defaults to [None]. *)
Record TodoCreate := mkTodoCreate {
  create_title : string;
  create_description : option string
}.

(** [TodoUpdate]: all of [title], [description] (default [None]) and
    [completed]. *)
Record TodoUpdate := mkTodoUpdate {
  update_title : string;
  update_description : option string;
  update_completed : bool
}.

(** [TodoOut]: the response schema, [TodoBase] plus [id]. *)
Record TodoOut := mkTodoOut {
  out_id : Z;
  out_title : string;
  out_description : option string;
  out_completed : bool
}.

(** [TodoOut.model_validate] with [from_attributes]: reads the four
    attributes of the ORM object. *)
Definition model_validate (t : TodoORM) : TodoOut :=
  {| out_id := id t; out_title := title t; out_description := description t;
     out_completed := completed t |}.

#[global] Instance columns_eq_dec : EqDecision columns.
Proof. solve_decision. Defined.

(** ** The storage engine *)

(** The largest key of the table, [None] when the table is empty. *)
Definition max_rowid (db : table) : option Z :=
  foldr (λ k acc, Some (from_option (Z.max k) k acc)) None (map_to_list db).*1.

(** The key the engine gives to a row inserted without one.  The column is
    declared [Column(Integer, primary_key=True, autoincrement=True)] on a
    [sqlite:///] URL; SQLAlchemy renders that as a plain [INTEGER] primary
    key (the [AUTOINCREMENT] keyword needs [sqlite_autoincrement], which the
    model does not set), an alias of SQLite's rowid.  SQLite then picks one
    more than the largest key in the table, and 1 for an empty table.  That
    is the rule as long as the largest key is below [2^63 - 1]
    ([rowids_below_max]); at that key SQLite draws unused keys at random
    instead, which this definition does not describe: the statements below
    that depend on the value of the new key carry [rowids_below_max] as a
    hypothesis. *)
Definition next_rowid (db : table) : Z :=
  match max_rowid db with
  | None => 1
  | Some m => m + 1
  end%Z.

(** [INSERT] of a row without a key: returns the key it was given. *)
Definition insert_row (c : columns) (db : table) : Z * table :=
  let k := next_rowid db in (k, <[k := c]> db).

(** [db.query(TodoORM).filter(TodoORM.id == todo_id).one_or_none()], for a
    [todo_id] the driver can bind ([fits_int64]; for any other the query
    raises, see [service]): the key is unique, so there is at most one
    row. *)
Definition query_by_id (db : table) (todo_id : Z) : option TodoORM :=
  load todo_id <$> db !! todo_id.

(** [ORDER BY id ASC]. *)
Definition id_asc (a b : TodoORM) : Prop := (id a ≤ id b)%Z.

#[global] Instance id_asc_dec : RelDecision id_asc.
Proof. intros a b; unfold id_asc; apply _. Defined.

(** [db.query(TodoORM).order_by(TodoORM.id.asc()).all()]. *)
Definition query_all_ordered (db : table) : list TodoORM :=
  merge_sort id_asc (uncurry load <$> map_to_list db).

(** [db.query(TodoORM).count()]. *)
Definition query_count (db : table) : nat := size db.

(** ** Exceptions *)

Definition HTTP_201_CREATED : Z := 201.
Definition HTTP_204_NO_CONTENT : Z := 204.
Definition HTTP_404_NOT_FOUND : Z := 404.
Definition HTTP_422_UNPROCESSABLE : Z := 422.

Record HTTPException := mkHTTPException {
  exc_status_code : Z;
  exc_detail : string
}.

Inductive result (A : Type) : Type :=
| Return (a : A)
| Raise (e : HTTPException).
Arguments Return {A} a.
Arguments Raise {A} e.

Definition bind {A B} (m : result A) (f : A → result B) : result B :=
  match m with
  | Return a => f a
  | Raise e => Raise e
  end.

(** ** Helper functions *)

(** [get_todo_or_404], for a [todo_id] the driver can bind. *)
Definition get_todo_or_404 (db : table) (todo_id : Z) : result TodoORM :=
  match query_by_id db todo_id with
  | None => Raise (mkHTTPException HTTP_404_NOT_FOUND "Todo not found")
  | Some todo => Return todo
  end.

(** [x or None] on an [Optional[str]]: the empty string is falsy. *)
Definition or_None (d : option string) : option string :=
  match d with
  | Some s => if decide (s = "") then None else Some s
  | None => None
  end.

(** ** Route handlers

    A handler returns what the Python function returns or raises, and the
    table as committed when the session closes.  A handler that raises has
    flushed nothing, so the table stays as it was.  [db.refresh(todo)] reads
    the row back by its key and raises when it is gone, which the server
    reports as a 500. *)

Definition refresh_failed : HTTPException :=
  mkHTTPException 500 "Internal Server Error".

Definition list_todos (db : table) : result (list TodoOut) * table :=
  (Return (model_validate <$> query_all_ordered db), db).

Definition get_todo (todo_id : Z) (db : table) : result TodoOut * table :=
  (bind (get_todo_or_404 db todo_id) (λ todo, Return (model_validate todo)), db).

Definition create_todo (payload : TodoCreate) (db : table) : result TodoOut * table :=
  let c := {| col_title := create_title payload;
              col_description := or_None (create_description payload);
              col_completed := false |} in
  let '(k, db') := insert_row c db in
  (* db.refresh(todo): read the row back under its new key *)
  match query_by_id db' k with
  | Some todo => (Return (model_validate todo), db')
  | None => (Raise refresh_failed, db')
  end.

Definition update_todo (todo_id : Z) (payload : TodoUpdate) (db : table)
  : result TodoOut * table :=
  match get_todo_or_404 db todo_id with
  | Raise e => (Raise e, db)
  | Return todo =>
      let todo := {| id := id todo; title := update_title payload;
                     description := update_description payload;
                     completed := update_completed payload |} in
      let db' := <[id todo := flush todo]> db in
      match query_by_id db' (id todo) with
      | Some todo => (Return (model_validate todo), db')
      | None => (Raise refresh_failed, db')
      end
  end.

Definition toggle_todo (todo_id : Z) (db : table) : result TodoOut * table :=
  match get_todo_or_404 db todo_id with
  | Raise e => (Raise e, db)
  | Return todo =>
      let todo := {| id := id todo; title := title todo;
                     description := description todo;
                     completed := negb (completed todo) |} in
      let db' := <[id todo := flush todo]> db in
      match query_by_id db' (id todo) with
      | Some todo => (Return (model_validate todo), db')
      | None => (Raise refresh_failed, db')
      end
  end.

Definition delete_todo (todo_id : Z) (db : table) : result unit * table :=
  match get_todo_or_404 db todo_id with
  | Raise e => (Raise e, db)
  | Return todo => (Return tt, delete (id todo) db)
  end.

(** ** Startup *)

Definition samples : list columns :=
  [ Columns "Buy groceries" (Some "Milk, Bread, Eggs") false;
    Columns "Read a book" (Some "Finish reading 'Atomic Habits'") true ].

(** [db.add_all(samples); db.commit()]: one insert per object, in order. *)
Definition add_all (cs : list columns) (db : table) : table :=
  foldl (λ acc c, (insert_row c acc).2) db cs.

Definition init_db (db : table) : table :=
  if decide (query_count db = 0) then add_all samples db else db.

(** ** Routing

    What FastAPI does around the handlers: it converts the path segment to
    the handler's [todo_id: int], answers 422 when that fails, and turns the
    handler's return value or [HTTPException] into a response with the
    route's status code. *)

(** The outcome of the framework's conversion of the path segment for a
    parameter annotated [int]: the integer it read (of either sign and of
    any size), or a refusal.  Which text it reads as which integer is the
    framework's business and is not modelled. *)
Inductive path_param :=
| IntParam (n : Z)
| NotAnInt.

(** A request whose body, if it has one, passed the validation of its
    schema: the payloads are the validated objects the handlers receive. *)
Inductive request :=
| HealthCheck
| ListTodos
| GetTodo (p : path_param)
| CreateTodo (payload : TodoCreate)
| UpdateTodo (p : path_param) (payload : TodoUpdate)
| ToggleTodo (p : path_param)
| DeleteTodo (p : path_param).

Inductive body :=
| Empty
| Message (m : string)
| Detail (d : string)
| ValidationErrors
| Todo (t : TodoOut)
| Todos (l : list TodoOut)
| PlainText (s : string).

Record response := mkResponse {
  status_code : Z;
  content : body
}.

Definition respond {A} (ok_status : Z) (to_body : A → body)
    (r : result A * table) : response * table :=
  match r.1 with
  | Return a => (mkResponse ok_status (to_body a), r.2)
  | Raise e => (mkResponse (exc_status_code e) (Detail (exc_detail e)), r.2)
  end.

Definition with_id (p : path_param) (db : table)
    (handler : Z → table → response * table) : response * table :=
  match p with
  | IntParam n => handler n db
  | NotAnInt => (mkResponse HTTP_422_UNPROCESSABLE ValidationErrors, db)
  end.

Definition app (req : request) (db : table) : response * table :=
  match req with
  | HealthCheck => (mkResponse 200 (Message "Healthy"), db)
  | ListTodos => respond 200 Todos (list_todos db)
  | GetTodo p => with_id p db (λ n db, respond 200 Todo (get_todo n db))
  | CreateTodo payload => respond HTTP_201_CREATED Todo (create_todo payload db)
  | UpdateTodo p payload =>
      with_id p db (λ n db, respond 200 Todo (update_todo n payload db))
  | ToggleTodo p => with_id p db (λ n db, respond 200 Todo (toggle_todo n db))
  | DeleteTodo p =>
      with_id p db (λ n db, respond HTTP_204_NO_CONTENT (λ _, Empty) (delete_todo n db))
  end.

(** A sequence of requests served one after the other: the responses, and
    every table the store went through (the first one included). *)
Fixpoint serve (reqs : list request) (db : table) : list response * list table :=
  match reqs with
  | [] => ([], [db])
  | req :: reqs' =>
      let '(resp, db') := app req db in
      let '(resps, dbs) := serve reqs' db' in
      (resp :: resps, db :: dbs)
  end.

(** The table left by a sequence of requests. *)
Definition final (reqs : list request) (db : table) : table :=
  foldl (λ acc req, (app req acc).2) db reqs.

(** The store of a first boot. *)
Definition seeded : table := init_db ∅.

(** ** Runs, and what is said about them *)

(** The answer to a request for an id that is not there. *)
Definition not_found : response := mkResponse 404 (Detail "Todo not found").

(** Number of create requests in a sequence. *)
Fixpoint creates (reqs : list request) : nat :=
  match reqs with
  | [] => 0
  | CreateTodo _ :: reqs' => S (creates reqs')
  | _ :: reqs' => creates reqs'
  end.

(** Number of delete requests in a sequence. *)
Fixpoint deletes (reqs : list request) : nat :=
  match reqs with
  | [] => 0
  | DeleteTodo _ :: reqs' => S (deletes reqs')
  | _ :: reqs' => deletes reqs'
  end.

(** Every delete of the sequence names a row that is in the table when the
    delete is served. *)
Fixpoint deletes_existing (reqs : list request) (db : table) : bool :=
  match reqs with
  | [] => true
  | req :: reqs' =>
      match req with
      | DeleteTodo (IntParam n) => bool_decide (is_Some (db !! n))
      | DeleteTodo NotAnInt => false
      | _ => true
      end && deletes_existing reqs' (app req db).2
  end.

(** Every row has a positive id: true of the empty table, and kept by
    startup and by every request. *)
Definition positive_ids (db : table) : Prop :=
  map_Forall (λ k _, (0 < k)%Z) db.

(** The columns a response object shows. *)
Definition row_of (t : TodoOut) : columns :=
  Columns (out_title t) (out_description t) (out_completed t).

(** Ascending ids, without repeats. *)
Definition id_ascending (l : list TodoOut) : Prop :=
  StronglySorted (λ a b, (out_id a < out_id b)%Z) l.

(** Sample payloads and request sequences. *)
Definition buy_milk : TodoCreate := mkTodoCreate "Buy milk" None.
Definition rename_done : TodoUpdate := mkTodoUpdate "Buy oat milk" None true.
Definition create_then_delete : list request :=
  [CreateTodo buy_milk; DeleteTodo (IntParam 3)].

Definition three_creates_one_delete : list request :=
  [ CreateTodo buy_milk; CreateTodo buy_milk; ToggleTodo (IntParam 2);
    DeleteTodo (IntParam 1); ListTodos; CreateTodo buy_milk ].

(** The path parameter of a request, for the routes that have one. *)
Definition path_of (req : request) : option path_param :=
  match req with
  | GetTodo p | UpdateTodo p _ | ToggleTodo p | DeleteTodo p => Some p
  | HealthCheck | ListTodos | CreateTodo _ => None
  end.

(** The id a request names, when its path parameter is an integer. *)
Definition target (req : request) : option Z :=
  match path_of req with
  | Some (IntParam n) => Some n
  | _ => None
  end.

(** The requests served by the [GET] routes. *)
Definition is_read (req : request) : bool :=
  match req with
  | HealthCheck | ListTodos | GetTodo _ => true
  | _ => false
  end.

(** What a request that names an id does to the row under that id, as a
    function of the row found there ([None]: no such row). *)
Definition row_effect (req : request) (row : option columns) : option columns :=
  match req with
  | UpdateTodo _ payload =>
      (λ _, Columns (update_title payload) (update_description payload)
                    (update_completed payload)) <$> row
  | ToggleTodo _ =>
      (λ c, Columns (col_title c) (col_description c) (negb (col_completed c))) <$> row
  | DeleteTodo _ => None
  | _ => row
  end.

(** The listing of a table, as [GET /todos] shows it. *)
Definition listing (db : table) : list TodoOut :=
  model_validate <$> query_all_ordered db.

(** No row holds the empty string as its description. *)
Definition no_empty_description (db : table) : Prop :=
  map_Forall (λ _ c, col_description c ≠ Some "") db.

(** The request is not a replace whose payload has the empty string as
    description. *)
Definition keeps_descriptions_nonempty (req : request) : bool :=
  match req with
  | UpdateTodo _ payload => bool_decide (update_description payload ≠ Some "")
  | _ => true
  end.

(** A run that creates, misses with a delete, and toggles. *)
Definition create_miss_toggle : list request :=
  [ CreateTodo buy_milk; DeleteTodo (IntParam 7); ToggleTodo (IntParam 1);
    GetTodo NotAnInt; CreateTodo buy_milk ].

(** ** The driver's integers

    SQLite keeps an [INTEGER] in 64 bits, signed, and the driver refuses to
    bind a Python [int] outside that range: the query inside
    [get_todo_or_404] raises [OverflowError] before it looks anything up.  No
    handler catches it, so the server answers 500 with the plain text
    "Internal Server Error" and the session closes with nothing written.
    [app] describes the requests whose id binds; [service] is the service
    for every request. *)

Definition MIN_ROWID : Z := (- 2 ^ 63)%Z.
Definition MAX_ROWID : Z := (2 ^ 63 - 1)%Z.

(** The integer can be bound as a SQLite [INTEGER]. *)
Definition fits_int64 (n : Z) : Prop := (MIN_ROWID ≤ n ≤ MAX_ROWID)%Z.

#[global] Instance fits_int64_dec (n : Z) : Decision (fits_int64 n).
Proof. unfold fits_int64. apply _. Defined.

(** The answer to a request whose handler raised something else than an
    [HTTPException]. *)
Definition server_error : response :=
  mkResponse 500 (PlainText "Internal Server Error").

Definition service (req : request) (db : table) : response * table :=
  match target req with
  | Some n => if decide (fits_int64 n) then app req db else (server_error, db)
  | None => app req db
  end.

(** The request passed the framework's validation and the id it names, if
    any, can be bound. *)
Definition binds (req : request) : Prop :=
  match path_of req with
  | Some (IntParam n) => fits_int64 n
  | Some NotAnInt => False
  | None => True
  end.

(** Every key is one SQLite can hold and is below the largest of them: the
    engine then gives the next row the key after the largest one. *)
Definition rowids_below_max (db : table) : Prop :=
  map_Forall (λ k _, (MIN_ROWID ≤ k < MAX_ROWID)%Z) db.

(** * Properties *)

(** ** The documented scenarios *)

Example seeded_rows :
  seeded = {[ 1%Z := Columns "Buy groceries" (Some "Milk, Bread, Eggs") false;
              2%Z := Columns "Read a book" (Some "Finish reading 'Atomic Habits'") true ]}.
Proof. by vm_compute. Qed.

Example scenario_1 :
  (app (CreateTodo (mkTodoCreate "Buy milk" None)) seeded).1
  = mkResponse 201 (Todo (mkTodoOut 3 "Buy milk" None false)).
Proof. by vm_compute. Qed.

Example scenario_list :
  (app ListTodos seeded).1
  = mkResponse 200 (Todos [ mkTodoOut 1 "Buy groceries" (Some "Milk, Bread, Eggs") false;
      mkTodoOut 2 "Read a book" (Some "Finish reading 'Atomic Habits'") true ]).
Proof. by vm_compute. Qed.

(** ** The storage engine *)

Section engine.
Implicit Types (db : table) (k : Z) (c : columns).

Lemma max_key_bounds (ks : list Z) (k : Z) :
  k ∈ ks →
  ∃ m, foldr (λ k acc, Some (from_option (Z.max k) k acc)) None ks = Some m
       ∧ (k ≤ m)%Z.
Proof.
  induction 1 as [k ks | k k' ks _ (m & Hm & Hle)]; simpl.
  - destruct (foldr _ _ ks); simpl; eexists; split; eauto; lia.
  - rewrite Hm; simpl. eexists; split; eauto. lia.
Qed.

Lemma max_rowid_bounds db k :
  is_Some (db !! k) → ∃ m, max_rowid db = Some m ∧ (k ≤ m)%Z.
Proof.
  intros [c Hc]. apply elem_of_map_to_list in Hc.
  apply max_key_bounds, list_elem_of_fmap. by exists (k, c).
Qed.

Lemma max_rowid_None db : max_rowid db = None → db = ∅.
Proof.
  intros Hm. apply map_empty; intros k.
  destruct (db !! k) eqn:Hk; [|done].
  destruct (max_rowid_bounds db k) as (m & Hm' & _); [eauto|congruence].
Qed.

Lemma next_rowid_above db k : is_Some (db !! k) → (k < next_rowid db)%Z.
Proof.
  intros Hk. destruct (max_rowid_bounds db k Hk) as (m & Hm & Hle).
  unfold next_rowid. rewrite Hm. lia.
Qed.

Lemma next_rowid_fresh db : db !! next_rowid db = None.
Proof.
  destruct (db !! next_rowid db) eqn:Hk; [|done].
  assert (next_rowid db < next_rowid db)%Z by (apply next_rowid_above; eauto).
  lia.
Qed.

Lemma next_rowid_empty : next_rowid ∅ = 1%Z.
Proof. reflexivity. Qed.

Lemma query_by_id_Some db k c : db !! k = Some c → query_by_id db k = Some (load k c).
Proof. intros H. unfold query_by_id. by rewrite H. Qed.

Lemma query_by_id_None db k : db !! k = None → query_by_id db k = None.
Proof. intros H. unfold query_by_id. by rewrite H. Qed.

Lemma get_todo_or_404_Some db k c :
  db !! k = Some c → get_todo_or_404 db k = Return (load k c).
Proof. intros H. unfold get_todo_or_404. by rewrite (query_by_id_Some _ _ c). Qed.

Lemma get_todo_or_404_None db k :
  db !! k = None →
  get_todo_or_404 db k = Raise (mkHTTPException 404 "Todo not found").
Proof. intros H. unfold get_todo_or_404. by rewrite query_by_id_None. Qed.
End engine.

(** ** What each route answers *)

Section routes.
Implicit Types (db : table) (k : Z) (c : columns).

Lemma app_get_hit db k c :
  db !! k = Some c →
  app (GetTodo (IntParam k)) db = (mkResponse 200 (Todo (model_validate (load k c))), db).
Proof.
  intros H. cbn. unfold respond, get_todo. cbn.
  by rewrite (get_todo_or_404_Some _ _ c).
Qed.

Lemma app_get_miss db k :
  db !! k = None → app (GetTodo (IntParam k)) db = (not_found, db).
Proof.
  intros H. cbn. unfold respond, get_todo. cbn.
  by rewrite get_todo_or_404_None.
Qed.

Lemma app_create payload db :
  let c := Columns (create_title payload) (or_None (create_description payload)) false in
  let k := next_rowid db in
  app (CreateTodo payload) db
  = (mkResponse 201 (Todo (model_validate (load k c))), <[k := c]> db).
Proof.
  cbn. unfold respond, create_todo, insert_row.
  rewrite (query_by_id_Some _ _ (Columns (create_title payload)
    (or_None (create_description payload)) false)); [done|].
  apply lookup_insert_eq.
Qed.

Lemma app_update_hit db k c payload :
  db !! k = Some c →
  let c' := Columns (update_title payload) (update_description payload)
                    (update_completed payload) in
  app (UpdateTodo (IntParam k) payload) db
  = (mkResponse 200 (Todo (model_validate (load k c'))), <[k := c']> db).
Proof.
  intros H. cbn. unfold respond, update_todo.
  rewrite (get_todo_or_404_Some _ _ c) by done. cbn.
  unfold flush; cbn.
  by rewrite (query_by_id_Some _ _ _ (lookup_insert_eq _ _ _)).
Qed.

Lemma app_update_miss db k payload :
  db !! k = None → app (UpdateTodo (IntParam k) payload) db = (not_found, db).
Proof.
  intros H. cbn. unfold respond, update_todo.
  by rewrite get_todo_or_404_None.
Qed.

Lemma app_toggle_hit db k c :
  db !! k = Some c →
  let c' := Columns (col_title c) (col_description c) (negb (col_completed c)) in
  app (ToggleTodo (IntParam k)) db
  = (mkResponse 200 (Todo (model_validate (load k c'))), <[k := c']> db).
Proof.
  intros H. cbn. unfold respond, toggle_todo.
  rewrite (get_todo_or_404_Some _ _ c) by done. cbn.
  unfold flush; cbn.
  by rewrite (query_by_id_Some _ _ _ (lookup_insert_eq _ _ _)).
Qed.

Lemma app_toggle_miss db k :
  db !! k = None → app (ToggleTodo (IntParam k)) db = (not_found, db).
Proof.
  intros H. cbn. unfold respond, toggle_todo.
  by rewrite get_todo_or_404_None.
Qed.

Lemma app_delete_hit db k c :
  db !! k = Some c →
  app (DeleteTodo (IntParam k)) db = (mkResponse 204 Empty, delete k db).
Proof.
  intros H. cbn. unfold respond, delete_todo.
  by rewrite (get_todo_or_404_Some _ _ c).
Qed.

Lemma app_delete_miss db k :
  db !! k = None → app (DeleteTodo (IntParam k)) db = (not_found, db).
Proof.
  intros H. cbn. unfold respond, delete_todo.
  by rewrite get_todo_or_404_None.
Qed.
End routes.

(** ** The table a request leaves behind *)

Section next_table.
Implicit Types (db : table) (k : Z) (c : columns).

Lemma final_cons req reqs db : final (req :: reqs) db = final reqs (app req db).2.
Proof. reflexivity. Qed.

(** The last table [serve] records is the one [final] computes. *)
Lemma serve_last reqs db : last (serve reqs db).2 = Some (final reqs db).
Proof.
  revert db. induction reqs as [|req reqs IH]; intros db; [done|].
  rewrite final_cons, <-IH. cbn [serve].
  destruct (app req db) as [resp db'] eqn:Happ. cbn [snd].
  destruct (serve reqs db') as [resps dbs] eqn:Hserve. cbn [snd].
  specialize (IH db'). rewrite Hserve in IH. cbn [snd] in IH.
  by destruct dbs.
Qed.

(** A request other than a create adds no key to the table. *)
Lemma app_no_new_key req db k :
  creates [req] = 0 → db !! k = None → (app req db).2 !! k = None.
Proof.
  intros Hreq Hk.
  destruct req as [| |p|payload|p payload|p|p]; try done;
    destruct p as [n|]; try done; destruct (db !! n) as [c|] eqn:Hn.
  - by rewrite (app_get_hit _ _ c).
  - by rewrite app_get_miss.
  - rewrite (app_update_hit _ _ c) by done. cbn.
    rewrite lookup_insert_ne; [done|congruence].
  - by rewrite app_update_miss.
  - rewrite (app_toggle_hit _ _ c) by done. cbn.
    rewrite lookup_insert_ne; [done|congruence].
  - by rewrite app_toggle_miss.
  - rewrite (app_delete_hit _ _ c) by done. cbn.
    rewrite lookup_delete_ne; [done|congruence].
  - by rewrite app_delete_miss.
Qed.

Lemma final_no_new_key reqs db k :
  creates reqs = 0 → db !! k = None → final reqs db !! k = None.
Proof.
  revert db. induction reqs as [|req reqs IH]; intros db Hc Hk; [done|].
  rewrite final_cons. apply IH.
  - by destruct req.
  - apply app_no_new_key; [by destruct req|done].
Qed.
End next_table.

(** ** Ids the driver binds, and ids it refuses *)

Section binding.
Implicit Types (db : table) (n : Z) (req : request).

Lemma service_fits req n db :
  target req = Some n → fits_int64 n → service req db = app req db.
Proof. intros Ht Hn. unfold service. rewrite Ht. by rewrite decide_True. Qed.

Lemma service_overflow req n db :
  target req = Some n → ¬ fits_int64 n → service req db = (server_error, db).
Proof. intros Ht Hn. unfold service. rewrite Ht. by rewrite decide_False. Qed.

Lemma service_no_id req db : target req = None → service req db = app req db.
Proof. intros Ht. unfold service. by rewrite Ht. Qed.

Lemma service_binds req db : binds req → service req db = app req db.
Proof.
  unfold binds, service, target.
  destruct (path_of req) as [[n|]|]; [|done..].
  intros Hn. by rewrite decide_True.
Qed.
End binding.

(** ** Claims about single requests *)

(** C1, as amended: for every create payload and every table, create answers
    201 with a Todo whose title is the payload's title, whose completed is
    false and whose id is the id of no row in the table; the table gains
    exactly that row, and a get with the returned id answers 200 with the
    same object.  The id of a deleted row may be given out again. *)
Theorem create_todo_returns_new_row (payload : TodoCreate) (db : table) :
  ∃ t : TodoOut,
    app (CreateTodo payload) db
    = (mkResponse HTTP_201_CREATED (Todo t),
       <[out_id t := Columns (out_title t) (out_description t) (out_completed t)]> db)
    ∧ out_title t = create_title payload
    ∧ out_completed t = false
    ∧ db !! out_id t = None
    ∧ (app (GetTodo (IntParam (out_id t))) (app (CreateTodo payload) db).2).1
      = mkResponse 200 (Todo t).
Proof.
  rewrite app_create.
  exists (mkTodoOut (next_rowid db) (create_title payload)
                    (or_None (create_description payload)) false).
  split; [reflexivity|]. split; [reflexivity|]. split; [reflexivity|].
  split; [apply next_rowid_fresh|].
  unfold out_id at 1, snd.
  by rewrite (app_get_hit _ _ _ (lookup_insert_eq _ _ _)).
Qed.

(** C1, as stated, fails: on the seeded table a create is answered with id
    3; once row 3 is deleted, the next create is answered with id 3 again,
    an id the store has held before. *)
Lemma create_todo_reuses_deleted_id :
  (serve create_then_delete seeded).1
  = [ mkResponse 201 (Todo (mkTodoOut 3 "Buy milk" None false));
      mkResponse 204 Empty ]
  ∧ (app (CreateTodo (mkTodoCreate "Call home" None)) (final create_then_delete seeded)).1
    = mkResponse 201 (Todo (mkTodoOut 3 "Call home" None false))
  ∧ (∃ db : table, db ∈ (serve create_then_delete seeded).2 ∧ is_Some (db !! 3%Z)).
Proof.
  split; [by vm_compute|]. split; [by vm_compute|].
  exists (app (CreateTodo buy_milk) seeded).2. split.
  - apply list_elem_of_lookup. exists 1%nat. by vm_compute.
  - vm_compute. by eexists.
Qed.

(** C2 does not hold of the code.  The id [2^63] is in no table, yet get,
    replace, toggle and delete on it are not answered 404: the driver cannot
    bind it, the query raises and the server answers 500. *)
Lemma absent_id_out_of_range_crashes :
  seeded !! (2 ^ 63)%Z = None
  ∧ service (GetTodo (IntParam (2 ^ 63))) seeded
    = (mkResponse 500 (PlainText "Internal Server Error"), seeded)
  ∧ service (UpdateTodo (IntParam (2 ^ 63)) rename_done) seeded
    = (mkResponse 500 (PlainText "Internal Server Error"), seeded)
  ∧ service (ToggleTodo (IntParam (2 ^ 63))) seeded
    = (mkResponse 500 (PlainText "Internal Server Error"), seeded)
  ∧ service (DeleteTodo (IntParam (2 ^ 63))) seeded
    = (mkResponse 500 (PlainText "Internal Server Error"), seeded).
Proof. repeat split; by vm_compute. Qed.

(** X17: for an id that fits in 64 bits and is not in the table,
    [get_todo_or_404] raises 404 with detail "Todo not found", and get,
    replace, toggle and delete each answer exactly that and leave the table
    as it was. *)
Theorem absent_id_that_binds_is_not_found (db : table) (k : Z) (payload : TodoUpdate) :
  fits_int64 k → db !! k = None →
  get_todo_or_404 db k = Raise (mkHTTPException HTTP_404_NOT_FOUND "Todo not found")
  ∧ service (GetTodo (IntParam k)) db = (mkResponse 404 (Detail "Todo not found"), db)
  ∧ service (UpdateTodo (IntParam k) payload) db
    = (mkResponse 404 (Detail "Todo not found"), db)
  ∧ service (ToggleTodo (IntParam k)) db = (mkResponse 404 (Detail "Todo not found"), db)
  ∧ service (DeleteTodo (IntParam k)) db = (mkResponse 404 (Detail "Todo not found"), db).
Proof.
  intros Hfit Hk. split; [by apply get_todo_or_404_None|].
  rewrite !(service_fits _ k) by done.
  by rewrite app_get_miss, app_update_miss, app_toggle_miss, app_delete_miss.
Qed.

(** X17 on the seeded table: no row has id 999. *)
Lemma absent_id_that_binds_is_not_found_seeded :
  fits_int64 999
  ∧ seeded !! 999%Z = None
  ∧ service (GetTodo (IntParam 999)) seeded
    = (mkResponse 404 (Detail "Todo not found"), seeded)
  ∧ service (DeleteTodo (IntParam 999)) seeded
    = (mkResponse 404 (Detail "Todo not found"), seeded).
Proof.
  assert (Hfit : fits_int64 999) by (apply (bool_decide_unpack _); by vm_compute).
  assert (H : seeded !! 999%Z = None) by (by vm_compute).
  split; [exact Hfit|]. split; [exact H|].
  destruct (absent_id_that_binds_is_not_found seeded 999 rename_done Hfit H)
    as (_ & Hg & _ & _ & Hd).
  split; [exact Hg|exact Hd].
Defined.

(** C3: for an id in the table, a toggle answers 200 with the row, its
    completed flag negated; a second toggle answers with the flag as it was
    at the start, and the table is then back to what it was. *)
Theorem toggle_todo_involution (db : table) (k : Z) (c : columns) :
  db !! k = Some c →
  (app (ToggleTodo (IntParam k)) db).1
  = mkResponse 200 (Todo (mkTodoOut k (col_title c) (col_description c)
                                    (negb (col_completed c))))
  ∧ (app (ToggleTodo (IntParam k)) (app (ToggleTodo (IntParam k)) db).2).1
    = mkResponse 200 (Todo (mkTodoOut k (col_title c) (col_description c)
                                      (col_completed c)))
  ∧ (app (ToggleTodo (IntParam k)) (app (ToggleTodo (IntParam k)) db).2).2 = db.
Proof.
  intros Hk. rewrite (app_toggle_hit _ _ c) by done. cbn [fst snd].
  split; [done|].
  rewrite (app_toggle_hit _ _ _ (lookup_insert_eq _ _ _)). cbn.
  rewrite negb_involutive. split; [done|].
  rewrite insert_insert_eq. apply insert_id. by destruct c.
Qed.

(** C3 on row 1 of the seeded table. *)
Lemma toggle_todo_involution_seeded :
  seeded !! 1%Z = Some (Columns "Buy groceries" (Some "Milk, Bread, Eggs") false)
  ∧ (app (ToggleTodo (IntParam 1)) seeded).1
    = mkResponse 200 (Todo (mkTodoOut 1 "Buy groceries" (Some "Milk, Bread, Eggs") true))
  ∧ (app (ToggleTodo (IntParam 1)) (app (ToggleTodo (IntParam 1)) seeded).2).2 = seeded.
Proof.
  assert (H : seeded !! 1%Z
              = Some (Columns "Buy groceries" (Some "Milk, Bread, Eggs") false))
    by (by vm_compute).
  split; [exact H|].
  destruct (toggle_todo_involution seeded 1 _ H) as (H1 & _ & H2).
  split; [exact H1|exact H2].
Defined.

(** C4: for an id in the table, a replace answers 200 with the id and
    exactly the payload's title, description and completed; the stored row
    holds exactly those values (a payload without description stores no
    description), and a get with that id answers with the same object. *)
Theorem update_todo_overwrites (db : table) (k : Z) (payload : TodoUpdate) :
  is_Some (db !! k) →
  app (UpdateTodo (IntParam k) payload) db
  = (mkResponse 200 (Todo (mkTodoOut k (update_title payload)
                             (update_description payload) (update_completed payload))),
     <[k := Columns (update_title payload) (update_description payload)
                    (update_completed payload)]> db)
  ∧ (app (UpdateTodo (IntParam k) payload) db).2 !! k
    = Some (Columns (update_title payload) (update_description payload)
                    (update_completed payload))
  ∧ (app (GetTodo (IntParam k)) (app (UpdateTodo (IntParam k) payload) db).2).1
    = mkResponse 200 (Todo (mkTodoOut k (update_title payload)
                              (update_description payload) (update_completed payload))).
Proof.
  intros [c Hk]. rewrite (app_update_hit _ _ c) by done. cbn [fst snd].
  split; [done|]. split; [apply lookup_insert_eq|].
  by rewrite (app_get_hit _ _ _ (lookup_insert_eq _ _ _)).
Qed.

(** C4 on row 1 of the seeded table, with a payload that has no description. *)
Lemma update_todo_overwrites_seeded :
  is_Some (seeded !! 1%Z)
  ∧ (app (UpdateTodo (IntParam 1) rename_done) seeded).2 !! 1%Z
    = Some (Columns "Buy oat milk" None true)
  ∧ (app (GetTodo (IntParam 1)) (app (UpdateTodo (IntParam 1) rename_done) seeded).2).1
    = mkResponse 200 (Todo (mkTodoOut 1 "Buy oat milk" None true)).
Proof.
  assert (H : is_Some (seeded !! 1%Z)) by (vm_compute; by eexists).
  split; [exact H|].
  destruct (update_todo_overwrites seeded 1 rename_done H) as (_ & H1 & H2).
  split; [exact H1|exact H2].
Defined.

(** C10: a replace, a toggle or a delete of an id in the table leaves every
    row under another id as it was, and a toggle keeps the id, title and
    description of its row and negates completed. *)
Theorem mutations_touch_one_row (db : table) (k j : Z) (c : columns) (payload : TodoUpdate) :
  db !! k = Some c → j ≠ k →
  (app (UpdateTodo (IntParam k) payload) db).2 !! j = db !! j
  ∧ (app (ToggleTodo (IntParam k)) db).2 !! j = db !! j
  ∧ (app (DeleteTodo (IntParam k)) db).2 !! j = db !! j
  ∧ (app (ToggleTodo (IntParam k)) db).2 !! k
    = Some (Columns (col_title c) (col_description c) (negb (col_completed c)))
  ∧ (app (ToggleTodo (IntParam k)) db).1
    = mkResponse 200 (Todo (mkTodoOut k (col_title c) (col_description c)
                                      (negb (col_completed c)))).
Proof.
  intros Hk Hj.
  rewrite (app_update_hit _ _ c), (app_toggle_hit _ _ c), (app_delete_hit _ _ c) by done.
  cbn [fst snd].
  rewrite !lookup_insert_ne, lookup_delete_ne, lookup_insert_eq by done.
  done.
Qed.

(** C10 on the seeded table: changing row 1 leaves row 2 alone. *)
Lemma mutations_touch_one_row_seeded :
  seeded !! 1%Z = Some (Columns "Buy groceries" (Some "Milk, Bread, Eggs") false)
  ∧ 2%Z ≠ 1%Z
  ∧ (app (UpdateTodo (IntParam 1) rename_done) seeded).2 !! 2%Z = seeded !! 2%Z
  ∧ (app (DeleteTodo (IntParam 1)) seeded).2 !! 2%Z = seeded !! 2%Z.
Proof.
  assert (H : seeded !! 1%Z
              = Some (Columns "Buy groceries" (Some "Milk, Bread, Eggs") false))
    by (by vm_compute).
  assert (Hne : 2%Z ≠ 1%Z) by lia.
  split; [exact H|]. split; [exact Hne|].
  destruct (mutations_touch_one_row seeded 1 2 _ rename_done H Hne) as (H1 & _ & H2 & _).
  split; [exact H1|exact H2].
Defined.

(** C7, as stated, fails: a create with the empty string as description
    stores no description, exactly as a create without one. *)
Lemma create_todo_drops_empty_description :
  app (CreateTodo (mkTodoCreate "Buy milk" (Some ""))) ∅
  = (mkResponse 201 (Todo (mkTodoOut 1 "Buy milk" None false)),
     {[ 1%Z := Columns "Buy milk" None false ]})
  ∧ app (CreateTodo (mkTodoCreate "Buy milk" (Some ""))) ∅
    = app (CreateTodo (mkTodoCreate "Buy milk" None)) ∅.
Proof. split; by vm_compute. Qed.

(** C7, as amended: a create stores no description when the payload has none
    or has the empty string, and stores a non-empty description as given.
    The table itself tells the two apart: a replace with the empty string
    as description stores the empty string. *)
Theorem create_todo_description (db : table) (ttl s : string) (k : Z) (b : bool) :
  s ≠ "" → is_Some (db !! k) →
  app (CreateTodo (mkTodoCreate ttl None)) db
  = (mkResponse 201 (Todo (mkTodoOut (next_rowid db) ttl None false)),
     <[next_rowid db := Columns ttl None false]> db)
  ∧ app (CreateTodo (mkTodoCreate ttl (Some ""))) db
    = (mkResponse 201 (Todo (mkTodoOut (next_rowid db) ttl None false)),
       <[next_rowid db := Columns ttl None false]> db)
  ∧ app (CreateTodo (mkTodoCreate ttl (Some s))) db
    = (mkResponse 201 (Todo (mkTodoOut (next_rowid db) ttl (Some s) false)),
       <[next_rowid db := Columns ttl (Some s) false]> db)
  ∧ (app (UpdateTodo (IntParam k) (mkTodoUpdate ttl (Some "") b)) db).2 !! k
    = Some (Columns ttl (Some "") b).
Proof.
  intros Hs [c Hk]. rewrite !app_create. cbn [create_title create_description or_None].
  rewrite decide_True by done. rewrite decide_False by done.
  rewrite (app_update_hit _ _ c) by done. cbn [fst snd].
  by rewrite lookup_insert_eq.
Qed.

(** C7, as amended, on the seeded table. *)
Lemma create_todo_description_seeded :
  "2%" ≠ ""
  ∧ is_Some (seeded !! 1%Z)
  ∧ (app (CreateTodo (mkTodoCreate "Buy milk" (Some "2%"))) seeded).1
    = mkResponse 201 (Todo (mkTodoOut 3 "Buy milk" (Some "2%") false))
  ∧ (app (UpdateTodo (IntParam 1) (mkTodoUpdate "Buy milk" (Some "") true)) seeded).2
      !! 1%Z
    = Some (Columns "Buy milk" (Some "") true).
Proof.
  assert (Hs : "2%" ≠ "") by done.
  assert (H : is_Some (seeded !! 1%Z)) by (vm_compute; by eexists).
  split; [exact Hs|]. split; [exact H|].
  destruct (create_todo_description seeded "Buy milk" "2%" 1 true Hs H)
    as (_ & _ & H1 & H2).
  split; [|exact H2].
  rewrite H1. by vm_compute.
Defined.

(** ** Ids stay positive *)

Section positive_ids.
Implicit Types (db : table) (k : Z) (c : columns).

Lemma positive_ids_next_rowid db : positive_ids db → (0 < next_rowid db)%Z.
Proof.
  intros Hpos. unfold next_rowid.
  destruct (max_rowid db) as [m|] eqn:Hm; [|lia].
  destruct (decide (db = ∅)) as [->|Hne]; [done|].
  apply map_choose in Hne as (k & c & Hk).
  destruct (max_rowid_bounds db k) as (m' & Hm' & Hle); [eauto|].
  specialize (Hpos k c Hk). simpl in Hpos. simplify_eq. lia.
Qed.

Lemma positive_ids_insert_row db c :
  positive_ids db → positive_ids (insert_row c db).2.
Proof.
  intros Hpos. apply map_Forall_insert_2; [|done].
  by apply positive_ids_next_rowid.
Qed.

Lemma positive_ids_init_db db : positive_ids db → positive_ids (init_db db).
Proof.
  intros Hpos. unfold init_db. case_decide; [|done].
  unfold add_all, samples; simpl. by do 2 apply positive_ids_insert_row.
Qed.

Lemma positive_ids_app req db : positive_ids db → positive_ids (app req db).2.
Proof.
  intros Hpos.
  destruct req as [| |p|payload|p payload|p|p]; try done;
    try (destruct p as [n|]; [|done]; destruct (db !! n) as [c|] eqn:Hn).
  - by rewrite (app_get_hit _ _ c).
  - by rewrite app_get_miss.
  - rewrite app_create. cbn [snd]. apply map_Forall_insert_2; [|done].
    by apply positive_ids_next_rowid.
  - rewrite (app_update_hit _ _ c) by done. cbn [snd].
    apply map_Forall_insert_2; [|done]. by apply (Hpos n c).
  - by rewrite app_update_miss.
  - rewrite (app_toggle_hit _ _ c) by done. cbn [snd].
    apply map_Forall_insert_2; [|done]. by apply (Hpos n c).
  - by rewrite app_toggle_miss.
  - rewrite (app_delete_hit _ _ c) by done. cbn [snd].
    by apply map_Forall_delete.
  - by rewrite app_delete_miss.
Qed.

Lemma positive_ids_absent db k : positive_ids db → (k ≤ 0)%Z → db !! k = None.
Proof.
  intros Hpos Hk. destruct (db !! k) as [c|] eqn:Hc; [|done].
  specialize (Hpos k c Hc). simpl in Hpos. lia.
Qed.

Lemma positive_ids_seeded : positive_ids seeded.
Proof. apply positive_ids_init_db, map_Forall_empty. Qed.
End positive_ids.

(** C8, as stated, fails: a path id of zero or below is not turned away as
    a validation failure; the handler runs its lookup and answers 404. *)
Lemma nonpositive_id_reaches_lookup :
  service (ToggleTodo (IntParam 0)) seeded
  = (mkResponse 404 (Detail "Todo not found"), seeded)
  ∧ service (DeleteTodo (IntParam (-5))) seeded
    = (mkResponse 404 (Detail "Todo not found"), seeded)
  ∧ get_todo_or_404 seeded 0 = Raise (mkHTTPException 404 "Todo not found")
  ∧ status_code (service (ToggleTodo (IntParam 0)) seeded).1 ≠ HTTP_422_UNPROCESSABLE.
Proof. repeat split; by vm_compute. Qed.

(** C8, as amended: get, replace, toggle and delete do not turn away a path
    id that is zero or negative.  When it fits in 64 bits the lookup runs,
    and as no row of a table filled through the service has such an id, the
    answer is 404 with detail "Todo not found" and the table is untouched. *)
Theorem nonpositive_id_is_looked_up (db : table) (n : Z) (payload : TodoUpdate) :
  positive_ids db → (n ≤ 0)%Z → fits_int64 n →
  get_todo_or_404 db n = Raise (mkHTTPException 404 "Todo not found")
  ∧ service (GetTodo (IntParam n)) db = (mkResponse 404 (Detail "Todo not found"), db)
  ∧ service (UpdateTodo (IntParam n) payload) db
    = (mkResponse 404 (Detail "Todo not found"), db)
  ∧ service (ToggleTodo (IntParam n)) db = (mkResponse 404 (Detail "Todo not found"), db)
  ∧ service (DeleteTodo (IntParam n)) db = (mkResponse 404 (Detail "Todo not found"), db).
Proof.
  intros Hpos Hn Hfit.
  assert (Hk : db !! n = None) by by apply positive_ids_absent.
  split; [by apply get_todo_or_404_None|].
  rewrite !(service_fits _ n) by done.
  by rewrite app_get_miss, app_update_miss, app_toggle_miss, app_delete_miss.
Qed.

(** C8, as amended, on the seeded table, for the ids 0 and [-2^63]. *)
Lemma nonpositive_id_is_looked_up_seeded :
  positive_ids seeded ∧ (0 ≤ 0)%Z ∧ fits_int64 0
  ∧ service (ToggleTodo (IntParam 0)) seeded
    = (mkResponse 404 (Detail "Todo not found"), seeded)
  ∧ service (DeleteTodo (IntParam (- 2 ^ 63))) seeded
    = (mkResponse 404 (Detail "Todo not found"), seeded).
Proof.
  assert (Hpos : positive_ids seeded)
    by (apply (bool_decide_unpack _); by vm_compute).
  assert (Hn : (0 ≤ 0)%Z) by lia.
  assert (Hfit : fits_int64 0) by (apply (bool_decide_unpack _); by vm_compute).
  assert (Hn' : (- 2 ^ 63 ≤ 0)%Z) by lia.
  assert (Hfit' : fits_int64 (- 2 ^ 63))
    by (apply (bool_decide_unpack _); by vm_compute).
  split; [exact Hpos|]. split; [exact Hn|]. split; [exact Hfit|].
  destruct (nonpositive_id_is_looked_up seeded 0 rename_done Hpos Hn Hfit)
    as (_ & _ & _ & H1 & _).
  destruct (nonpositive_id_is_looked_up seeded (- 2 ^ 63) rename_done Hpos Hn' Hfit')
    as (_ & _ & _ & _ & H2).
  split; [exact H1|exact H2].
Defined.

(** C9: startup on an empty table inserts exactly the two sample rows, one
    not completed and one completed; startup on any other table changes
    nothing; so a second startup never adds rows. *)
Theorem init_db_seeds_once (db : table) :
  init_db ∅
  = {[ 1%Z := Columns "Buy groceries" (Some "Milk, Bread, Eggs") false;
       2%Z := Columns "Read a book" (Some "Finish reading 'Atomic Habits'") true ]}
  ∧ size (init_db ∅) = 2
  ∧ init_db db = (if decide (db = ∅) then init_db ∅ else db)
  ∧ init_db (init_db db) = init_db db.
Proof.
  assert (Hrows : init_db ∅
    = {[ 1%Z := Columns "Buy groceries" (Some "Milk, Bread, Eggs") false;
         2%Z := Columns "Read a book" (Some "Finish reading 'Atomic Habits'") true ]})
    by (by vm_compute).
  assert (Hstep : init_db db = if decide (db = ∅) then init_db ∅ else db).
  { unfold init_db at 1, query_count. case_decide as Hsz.
    - apply map_size_empty_inv in Hsz as ->. by rewrite decide_True.
    - rewrite decide_False; [done|]. by intros ->. }
  split; [exact Hrows|]. split; [by vm_compute|]. split; [exact Hstep|].
  destruct (decide (db = ∅)) as [->|Hne].
  - unfold init_db at 1, query_count. rewrite decide_False; [done|].
    rewrite Hrows. by vm_compute.
  - by rewrite !Hstep.
Qed.

(** ** The listing *)

Section listing.
Implicit Types (db : table) (k : Z) (c : columns) (t : TodoOut).

#[local] Instance id_asc_trans : Transitive id_asc.
Proof. intros a b c. unfold id_asc. lia. Qed.

#[local] Instance id_asc_total : Total id_asc.
Proof. intros a b. unfold id_asc. lia. Qed.

Lemma app_list db :
  app ListTodos db
  = (mkResponse 200 (Todos (model_validate <$> query_all_ordered db)), db).
Proof. reflexivity. Qed.

Lemma query_all_ordered_perm db :
  query_all_ordered db ≡ₚ uncurry load <$> map_to_list db.
Proof. apply merge_sort_Permutation. Qed.

Lemma query_all_ordered_ids db :
  id <$> query_all_ordered db ≡ₚ (map_to_list db).*1.
Proof.
  rewrite query_all_ordered_perm, <-list_fmap_compose.
  by rewrite (list_fmap_ext (id ∘ uncurry load) fst (map_to_list db))
    by (by intros _ [k c] _).
Qed.

Lemma elem_of_listing db t :
  t ∈ model_validate <$> query_all_ordered db ↔ db !! out_id t = Some (row_of t).
Proof.
  rewrite query_all_ordered_perm, <-list_fmap_compose, list_elem_of_fmap.
  split.
  - intros ([k c] & -> & Hkc). apply elem_of_map_to_list in Hkc.
    cbn. by destruct c.
  - intros Ht. exists (out_id t, row_of t). split.
    + by destruct t.
    + by apply elem_of_map_to_list.
Qed.

Lemma length_listing db :
  length (model_validate <$> query_all_ordered db) = size db.
Proof.
  rewrite length_fmap, query_all_ordered_perm, length_fmap.
  apply length_map_to_list.
Qed.

(** A list sorted by [≤] on a key that never repeats is sorted by [<]. *)
Lemma sorted_nodup_strict {A} (f : A → Z) (l : list A) :
  StronglySorted (λ a b, (f a ≤ f b)%Z) l → NoDup (f <$> l) →
  StronglySorted (λ a b, (f a < f b)%Z) l.
Proof.
  induction 1 as [|x l Hl IH Hx]; intros Hnd; [constructor|].
  apply NoDup_cons in Hnd as [Hnotin Hnd].
  constructor; [by apply IH|].
  apply Forall_forall. intros y Hy.
  rewrite Forall_forall in Hx. specialize (Hx y Hy). cbn in Hx.
  assert (f x ≠ f y); [|lia].
  intros Heq. apply Hnotin. rewrite Heq. apply list_elem_of_fmap. eauto.
Qed.

Lemma listing_ascending db :
  id_ascending (model_validate <$> query_all_ordered db).
Proof.
  apply (StronglySorted_fmap _ (λ a b, (id a < id b)%Z)); [done|].
  apply sorted_nodup_strict.
  - apply (StronglySorted_merge_sort id_asc).
  - rewrite query_all_ordered_ids. apply NoDup_fst_map_to_list.
Qed.

Lemma listing_empty : model_validate <$> query_all_ordered ∅ = [].
Proof. reflexivity. Qed.
End listing.

(** ** Counting rows along a run *)

Section counting.
Implicit Types (db : table) (reqs : list request).

Lemma size_app req db :
  deletes_existing [req] db = true →
  size (app req db).2 + deletes [req] = size db + creates [req].
Proof.
  intros Hd.
  destruct req as [| |p|payload|p payload|p|p]; cbn [creates deletes];
    try (cbn; lia);
    try (destruct p as [n|]; [|first [done | cbn; lia]];
         destruct (db !! n) as [c|] eqn:Hn).
  - rewrite (app_get_hit _ _ c) by done. cbn; lia.
  - rewrite app_get_miss by done. cbn; lia.
  - rewrite app_create. cbn [snd].
    rewrite map_size_insert_None by apply next_rowid_fresh. lia.
  - rewrite (app_update_hit _ _ c) by done. cbn [snd].
    rewrite map_size_insert_Some by eauto. lia.
  - rewrite app_update_miss by done. cbn; lia.
  - rewrite (app_toggle_hit _ _ c) by done. cbn [snd].
    rewrite map_size_insert_Some by eauto. lia.
  - rewrite app_toggle_miss by done. cbn; lia.
  - rewrite (app_delete_hit _ _ c) by done. cbn [snd].
    assert (size db ≠ 0) by (apply map_size_non_empty_iff; by intros ->).
    rewrite map_size_delete_Some by eauto. lia.
  - cbn [deletes_existing] in Hd. apply andb_true_iff in Hd as [Hd _].
    apply bool_decide_eq_true in Hd as [c Hc]. congruence.
Qed.

Lemma size_final reqs db :
  deletes_existing reqs db = true →
  size (final reqs db) + deletes reqs = size db + creates reqs.
Proof.
  revert db. induction reqs as [|req reqs IH]; intros db Hd; [cbn; lia|].
  cbn [deletes_existing] in Hd. apply andb_true_iff in Hd as [Hreq Hrest].
  rewrite final_cons. specialize (IH _ Hrest).
  assert (Hone : deletes_existing [req] db = true)
    by (cbn [deletes_existing]; by rewrite Hreq).
  pose proof (size_app req db Hone) as Hstep.
  assert (Hc : creates (req :: reqs) = creates [req] + creates reqs)
    by (by destruct req).
  assert (Hdel : deletes (req :: reqs) = deletes [req] + deletes reqs)
    by (by destruct req).
  lia.
Qed.
End counting.

(** ** Claims about the listing *)

(** C5: after any sequence of requests whose deletes all name a row that is
    there, list answers 200 with exactly the rows of the table, in strictly
    ascending order of id; the listing of an empty table is empty; and the
    number of items is the number of rows at the start plus the creates
    minus the deletes of the sequence, which from an empty table is the
    creates minus the deletes. *)
Theorem list_todos_after_requests (reqs : list request) (db0 : table) :
  deletes_existing reqs db0 = true →
  ∃ l : list TodoOut,
    app ListTodos (final reqs db0) = (mkResponse 200 (Todos l), final reqs db0)
    ∧ id_ascending l
    ∧ (∀ t, t ∈ l ↔ final reqs db0 !! out_id t = Some (row_of t))
    ∧ (app ListTodos ∅).1 = mkResponse 200 (Todos [])
    ∧ (Z.of_nat (length l)
       = Z.of_nat (size db0) + Z.of_nat (creates reqs) - Z.of_nat (deletes reqs))%Z
    ∧ (db0 = ∅ →
       Z.of_nat (length l) = (Z.of_nat (creates reqs) - Z.of_nat (deletes reqs))%Z).
Proof.
  intros Hd. exists (model_validate <$> query_all_ordered (final reqs db0)).
  split; [apply app_list|]. split; [apply listing_ascending|].
  split; [apply elem_of_listing|]. split; [done|].
  pose proof (size_final reqs db0 Hd) as Hsize.
  rewrite length_listing. split; [lia|].
  intros ->. rewrite map_size_empty in Hsize. lia.
Qed.

(** C5 from an empty table: three creates and one delete leave two items. *)
Lemma list_todos_after_requests_empty_start :
  deletes_existing three_creates_one_delete ∅ = true
  ∧ ∃ l : list TodoOut,
      (app ListTodos (final three_creates_one_delete ∅)).1 = mkResponse 200 (Todos l)
      ∧ id_ascending l
      ∧ Z.of_nat (length l) = (3 - 1)%Z.
Proof.
  assert (H : deletes_existing three_creates_one_delete ∅ = true) by (by vm_compute).
  split; [exact H|].
  destruct (list_todos_after_requests three_creates_one_delete ∅ H)
    as (l & Hl & Hasc & _ & _ & _ & Hlen).
  exists l. split; [by rewrite Hl|]. split; [exact Hasc|].
  exact (Hlen eq_refl).
Defined.

Example list_after_three_creates_one_delete :
  (app ListTodos (final three_creates_one_delete ∅)).1
  = mkResponse 200 (Todos [ mkTodoOut 2 "Buy milk" None true;
                            mkTodoOut 3 "Buy milk" None false ]).
Proof. by vm_compute. Qed.

(** C6: a delete of an id in the table answers 204 with an empty body and
    removes the row: a get with that id then answers 404 "Todo not found",
    the listing holds no item with that id, and the get keeps answering 404
    through any later requests that are not creates. *)
Theorem delete_todo_removes_row (db : table) (k : Z) (reqs : list request) :
  is_Some (db !! k) → creates reqs = 0 →
  app (DeleteTodo (IntParam k)) db = (mkResponse HTTP_204_NO_CONTENT Empty, delete k db)
  ∧ (app (GetTodo (IntParam k)) (app (DeleteTodo (IntParam k)) db).2).1
    = mkResponse 404 (Detail "Todo not found")
  ∧ (∃ l : list TodoOut,
       (app ListTodos (app (DeleteTodo (IntParam k)) db).2).1 = mkResponse 200 (Todos l)
       ∧ ∀ t, t ∈ l → out_id t ≠ k)
  ∧ (app (GetTodo (IntParam k)) (final reqs (app (DeleteTodo (IntParam k)) db).2)).1
    = mkResponse 404 (Detail "Todo not found").
Proof.
  intros [c Hk] Hreqs. rewrite (app_delete_hit _ _ c) by done. cbn [fst snd].
  split; [done|].
  split; [by rewrite app_get_miss by apply lookup_delete_eq|].
  split.
  - eexists. rewrite app_list. split; [done|].
    intros t Ht%elem_of_listing Heq. by rewrite Heq, lookup_delete_eq in Ht.
  - rewrite app_get_miss; [done|].
    apply final_no_new_key; [done|apply lookup_delete_eq].
Qed.

(** C6 on row 2 of the seeded table. *)
Lemma delete_todo_removes_row_seeded :
  is_Some (seeded !! 2%Z)
  ∧ creates [ToggleTodo (IntParam 2); ListTodos] = 0
  ∧ (app (DeleteTodo (IntParam 2)) seeded).1 = mkResponse 204 Empty
  ∧ (app (GetTodo (IntParam 2)) (app (DeleteTodo (IntParam 2)) seeded).2).1
    = mkResponse 404 (Detail "Todo not found").
Proof.
  assert (H : is_Some (seeded !! 2%Z)) by (vm_compute; by eexists).
  assert (Hc : creates [ToggleTodo (IntParam 2); ListTodos] = 0) by reflexivity.
  split; [exact H|]. split; [exact Hc|].
  destruct (delete_todo_removes_row seeded 2 _ H Hc) as (H1 & H2 & _).
  split; [by rewrite H1|exact H2].
Defined.

(** * Further properties of the handlers *)

(** ** How the engine hands out keys *)

Section rowids.
Implicit Types (db : table) (k m : Z) (c : columns).

Lemma max_key_elem (ks : list Z) (m : Z) :
  foldr (λ k acc, Some (from_option (Z.max k) k acc)) None ks = Some m → m ∈ ks.
Proof.
  revert m. induction ks as [|k ks IH]; intros m; simpl; [done|].
  destruct (foldr _ _ ks) as [m'|]; simpl; intros [= <-].
  - destruct (Z.max_spec k m') as [[_ ->]|[_ ->]].
    + apply list_elem_of_further. by apply IH.
    + apply list_elem_of_here.
  - apply list_elem_of_here.
Qed.

Lemma max_rowid_Some db m :
  max_rowid db = Some m ↔
  is_Some (db !! m) ∧ ∀ k, is_Some (db !! k) → (k ≤ m)%Z.
Proof.
  split.
  - intros Hm. split.
    + apply max_key_elem, list_elem_of_fmap in Hm as ([k c] & -> & Hkc).
      apply elem_of_map_to_list in Hkc. eauto.
    + intros k Hk. destruct (max_rowid_bounds db k Hk) as (m' & Hm' & Hle).
      congruence.
  - intros [Hin Hmax].
    destruct (max_rowid_bounds db m Hin) as (m' & Hm' & Hle).
    assert (is_Some (db !! m')) as Hin'.
    { apply max_key_elem, list_elem_of_fmap in Hm' as ([k c] & -> & Hkc).
      apply elem_of_map_to_list in Hkc. eauto. }
    specialize (Hmax m' Hin'). rewrite Hm'. f_equal. lia.
Qed.

Lemma next_rowid_insert db c :
  next_rowid (<[next_rowid db := c]> db) = (next_rowid db + 1)%Z.
Proof.
  assert (max_rowid (<[next_rowid db := c]> db) = Some (next_rowid db)) as Hm.
  { apply max_rowid_Some. split.
    - rewrite lookup_insert_eq. eauto.
    - intros k Hk. destruct (decide (k = next_rowid db)) as [->|Hne]; [lia|].
      rewrite lookup_insert_ne in Hk by done.
      apply next_rowid_above in Hk. lia. }
  unfold next_rowid at 1. by rewrite Hm.
Qed.

Lemma next_rowid_fits db : rowids_below_max db → fits_int64 (next_rowid db).
Proof.
  intros Hdb. unfold next_rowid.
  destruct (max_rowid db) as [m|] eqn:Hm.
  - assert (is_Some (db !! m)) as [c Hc].
    { apply max_key_elem, list_elem_of_fmap in Hm as ([k c] & -> & Hkc).
      apply elem_of_map_to_list in Hkc. eauto. }
    specialize (Hdb m c Hc). cbn in Hdb.
    unfold fits_int64, MIN_ROWID, MAX_ROWID in *. lia.
  - unfold fits_int64, MIN_ROWID, MAX_ROWID. lia.
Qed.
End rowids.

(** ** Requests that name an id act on that row alone *)

Section locality.
Implicit Types (db : table) (k n : Z) (c : columns) (req : request).

Lemma target_path req n : target req = Some n → path_of req = Some (IntParam n).
Proof.
  unfold target. destruct (path_of req) as [[n'|]|]; naive_solver.
Qed.

(** The table after a request that names an id: the row under that id is
    rewritten by [row_effect], nothing else is. *)
Lemma app_row_effect req n db :
  target req = Some n → (app req db).2 = partial_alter (row_effect req) n db.
Proof.
  intros Ht%target_path.
  destruct req as [| |p|payload|p payload|p|p]; cbn [path_of] in Ht;
    simplify_eq; destruct (db !! n) as [c|] eqn:Hn.
  - rewrite (app_get_hit _ _ c) by done. cbn [snd].
    symmetry. by apply partial_alter_id.
  - rewrite app_get_miss by done. cbn [snd]. symmetry. by apply partial_alter_id.
  - rewrite (app_update_hit _ _ c) by done. cbn [snd].
    apply partial_alter_ext. by intros x <-; rewrite Hn.
  - rewrite app_update_miss by done. cbn [snd]. symmetry.
    apply partial_alter_id. by rewrite Hn.
  - rewrite (app_toggle_hit _ _ c) by done. cbn [snd].
    apply partial_alter_ext. by intros x <-; rewrite Hn.
  - rewrite app_toggle_miss by done. cbn [snd]. symmetry.
    apply partial_alter_id. by rewrite Hn.
  - by rewrite (app_delete_hit _ _ c).
  - rewrite app_delete_miss by done. cbn [snd]. symmetry.
    apply partial_alter_id. by rewrite Hn.
Qed.

(** The answer to a request that names an id depends on the table only
    through the row under that id. *)
Lemma app_answer_local req n db db' :
  target req = Some n → db !! n = db' !! n → (app req db).1 = (app req db').1.
Proof.
  intros Ht%target_path Heq.
  destruct req as [| |p|payload|p payload|p|p]; cbn [path_of] in Ht;
    simplify_eq; destruct (db !! n) as [c|] eqn:Hn; symmetry in Heq.
  - by rewrite !(app_get_hit _ _ c).
  - by rewrite !app_get_miss.
  - by rewrite !(app_update_hit _ _ c).
  - by rewrite !app_update_miss.
  - by rewrite !(app_toggle_hit _ _ c).
  - by rewrite !app_toggle_miss.
  - by rewrite !(app_delete_hit _ _ c).
  - by rewrite !app_delete_miss.
Qed.
End locality.

(** ** How requests compose *)

(** X1: two requests that name different ids can be served in either order:
    the table left behind is the same, and each is answered as it would
    have been without the other. *)
Theorem requests_on_distinct_ids_commute (r1 r2 : request) (k j : Z) (db : table) :
  target r1 = Some k → target r2 = Some j → k ≠ j →
  final [r1; r2] db = final [r2; r1] db
  ∧ (app r2 (app r1 db).2).1 = (app r2 db).1
  ∧ (app r1 (app r2 db).2).1 = (app r1 db).1.
Proof.
  intros H1 H2 Hne. unfold final. cbn [foldl].
  rewrite ?(app_row_effect r1 k), ?(app_row_effect r2 j) by done.
  split; [by apply partial_alter_partial_alter_ne|].
  split; (eapply app_answer_local; [done|]); by rewrite lookup_partial_alter_ne.
Qed.

(** X1 on the seeded table: toggling row 1 and deleting row 2. *)
Lemma requests_on_distinct_ids_commute_seeded :
  target (ToggleTodo (IntParam 1)) = Some 1%Z
  ∧ target (DeleteTodo (IntParam 2)) = Some 2%Z
  ∧ 1%Z ≠ 2%Z
  ∧ final [ToggleTodo (IntParam 1); DeleteTodo (IntParam 2)] seeded
    = final [DeleteTodo (IntParam 2); ToggleTodo (IntParam 1)] seeded.
Proof.
  assert (H1 : target (ToggleTodo (IntParam 1)) = Some 1%Z) by reflexivity.
  assert (H2 : target (DeleteTodo (IntParam 2)) = Some 2%Z) by reflexivity.
  assert (Hne : 1%Z ≠ 2%Z) by lia.
  split; [exact H1|]. split; [exact H2|]. split; [exact Hne|].
  exact (proj1 (requests_on_distinct_ids_commute _ _ _ _ seeded H1 H2 Hne)).
Defined.

Lemma app_update_twice (p : path_param) (payload : TodoUpdate) (db : table) :
  app (UpdateTodo p payload) (app (UpdateTodo p payload) db).2
  = app (UpdateTodo p payload) db.
Proof.
  destruct p as [k|]; [|done]. destruct (db !! k) as [c|] eqn:Hk.
  - rewrite (app_update_hit db _ c) by done. cbn [snd].
    rewrite (app_update_hit _ _ _ payload (lookup_insert_eq _ _ _)).
    by rewrite insert_insert_eq.
  - by rewrite !(app_update_miss db).
Qed.

Lemma app_delete_twice (p : path_param) (db : table) :
  (app (DeleteTodo p) (app (DeleteTodo p) db).2).2 = (app (DeleteTodo p) db).2.
Proof.
  destruct p as [k|]; [|done].
  rewrite !(app_row_effect _ k) by done.
  rewrite partial_alter_partial_alter_eq. by apply partial_alter_ext.
Qed.

Lemma app_delete_twice_answer (n : Z) (db : table) :
  (app (DeleteTodo (IntParam n)) (app (DeleteTodo (IntParam n)) db).2).1 = not_found.
Proof.
  rewrite (app_row_effect _ n) by done.
  by rewrite app_delete_miss by apply lookup_partial_alter_eq.
Qed.

(** X2: a replace served twice in a row is answered the second time exactly
    as the first and leaves the same table as serving it once, whether the
    id is there or not; a delete served twice leaves the same table as
    serving it once, and for an id that fits in 64 bits it is answered 404
    the second time. *)
Theorem update_and_delete_idempotent
    (p : path_param) (payload : TodoUpdate) (n : Z) (db : table) :
  fits_int64 n →
  service (UpdateTodo p payload) (service (UpdateTodo p payload) db).2
  = service (UpdateTodo p payload) db
  ∧ (service (DeleteTodo p) (service (DeleteTodo p) db).2).2
    = (service (DeleteTodo p) db).2
  ∧ (service (DeleteTodo (IntParam n)) (service (DeleteTodo (IntParam n)) db).2).1
    = not_found.
Proof.
  intros Hn. split; [|split].
  - destruct p as [k|]; [destruct (decide (fits_int64 k)) as [Hk|Hk]|].
    + rewrite !(service_fits _ k) by done. apply app_update_twice.
    + by rewrite !(service_overflow _ k).
    + rewrite !service_no_id by done. apply app_update_twice.
  - destruct p as [k|]; [destruct (decide (fits_int64 k)) as [Hk|Hk]|].
    + rewrite !(service_fits _ k) by done. apply app_delete_twice.
    + by rewrite !(service_overflow _ k).
    + rewrite !service_no_id by done. apply app_delete_twice.
  - rewrite !(service_fits _ n) by done. apply app_delete_twice_answer.
Qed.

(** X2 on row 1 of the seeded table. *)
Lemma update_and_delete_idempotent_seeded :
  fits_int64 1
  ∧ (service (DeleteTodo (IntParam 1)) (service (DeleteTodo (IntParam 1)) seeded).2).1
    = not_found.
Proof.
  assert (H : fits_int64 1) by (apply (bool_decide_unpack _); by vm_compute).
  split; [exact H|].
  exact (proj2 (proj2 (update_and_delete_idempotent (IntParam 1) rename_done 1 seeded H))).
Defined.

(** X3: a toggle of a row is the replace that keeps its title and
    description and negates its completed flag: same answer, same table. *)
Theorem toggle_is_a_replace (db : table) (k : Z) (c : columns) :
  db !! k = Some c →
  app (ToggleTodo (IntParam k)) db
  = app (UpdateTodo (IntParam k)
          (mkTodoUpdate (col_title c) (col_description c) (negb (col_completed c)))) db.
Proof.
  intros Hk. by rewrite (app_toggle_hit _ _ c), (app_update_hit _ _ c).
Qed.

(** X3 on row 2 of the seeded table. *)
Lemma toggle_is_a_replace_seeded :
  seeded !! 2%Z
  = Some (Columns "Read a book" (Some "Finish reading 'Atomic Habits'") true)
  ∧ app (ToggleTodo (IntParam 2)) seeded
    = app (UpdateTodo (IntParam 2)
            (mkTodoUpdate "Read a book" (Some "Finish reading 'Atomic Habits'") false))
          seeded.
Proof.
  assert (H : seeded !! 2%Z
    = Some (Columns "Read a book" (Some "Finish reading 'Atomic Habits'") true))
    by (by vm_compute).
  split; [exact H|]. exact (toggle_is_a_replace seeded 2 _ H).
Defined.

(** X4: only a create adds an id and only a delete removes one: after any
    other request, a replace or toggle included, the table holds the same
    ids as before (a replace of a missing id creates nothing). *)
Theorem ids_change_only_by_create_and_delete (req : request) (db : table) :
  creates [req] = 0 → deletes [req] = 0 → dom (app req db).2 = dom db.
Proof.
  intros Hc Hd.
  destruct req as [| |p|payload|p payload|p|p]; try done;
    (destruct p as [n|]; [|done]); destruct (db !! n) as [c|] eqn:Hn.
  - by rewrite (app_get_hit _ _ c).
  - by rewrite app_get_miss.
  - rewrite (app_update_hit _ _ c) by done. cbn [snd].
    apply dom_insert_lookup_L; eauto.
  - by rewrite app_update_miss.
  - rewrite (app_toggle_hit _ _ c) by done. cbn [snd].
    apply dom_insert_lookup_L; eauto.
  - by rewrite app_toggle_miss.
Qed.

(** X4 for a replace of a missing id on the seeded table. *)
Lemma ids_change_only_by_create_and_delete_seeded :
  creates [UpdateTodo (IntParam 9) rename_done] = 0
  ∧ deletes [UpdateTodo (IntParam 9) rename_done] = 0
  ∧ dom (app (UpdateTodo (IntParam 9) rename_done) seeded).2 = dom seeded.
Proof.
  assert (Hc : creates [UpdateTodo (IntParam 9) rename_done] = 0) by reflexivity.
  assert (Hd : deletes [UpdateTodo (IntParam 9) rename_done] = 0) by reflexivity.
  split; [exact Hc|]. split; [exact Hd|].
  exact (ids_change_only_by_create_and_delete _ seeded Hc Hd).
Defined.

(** ** Status codes and failures *)

(** Case analysis on a request and on whether the id it names is there,
    with the answer of the route worked out in each case. *)
Ltac route_cases req db :=
  destruct req as [| |[n|]|payload|[n|] payload|[n|]|[n|]];
  try (destruct (db !! n) as [c|] eqn:Hn;
       [ rewrite ?(app_get_hit db n c), ?(app_update_hit db n c),
           ?(app_toggle_hit db n c), ?(app_delete_hit db n c) by done
       | rewrite ?(app_get_miss db n), ?(app_update_miss db n),
           ?(app_toggle_miss db n), ?(app_delete_miss db n) by done ]);
  rewrite ?app_create;
  cbn [app with_id respond list_todos fst snd status_code not_found path_of target].

(** X5: a request that passed validation and whose id, if it names one, fits
    in 64 bits is answered 200, 201, 204 or 404 and nothing else (the row a
    handler has just written is always there to be read back, so no write
    ends in a 500).  It is 404 exactly when the request names an id that is
    not in the table, 201 exactly for a create, and 204 exactly for a delete
    of an id that is in the table. *)
Theorem service_status_codes (req : request) (db : table) :
  binds req →
  status_code (service req db).1 ∈ [200; 201; 204; 404]%Z
  ∧ (status_code (service req db).1 = 404%Z ↔
     ∃ n, target req = Some n ∧ db !! n = None)
  ∧ (status_code (service req db).1 = 201%Z ↔ ∃ payload, req = CreateTodo payload)
  ∧ (status_code (service req db).1 = 204%Z ↔
     ∃ n, req = DeleteTodo (IntParam n) ∧ is_Some (db !! n)).
Proof.
  intros Hb. rewrite (service_binds _ _ Hb).
  route_cases req db; try (exfalso; exact Hb);
    unfold HTTP_201_CREATED, HTTP_204_NO_CONTENT;
    (split; [rewrite !elem_of_cons; lia|]);
    repeat split; intros;
    repeat match goal with
      | H : ∃ _, _ |- _ => destruct H
      | H : _ ∧ _ |- _ => destruct H
      | H : is_Some _ |- _ => destruct H
      end;
    try discriminate; try lia; try congruence; eauto.
Qed.

(** X5 for a delete of row 1 of the seeded table. *)
Lemma service_status_codes_seeded :
  binds (DeleteTodo (IntParam 1))
  ∧ status_code (service (DeleteTodo (IntParam 1)) seeded).1 ∈ [200; 201; 204; 404]%Z.
Proof.
  assert (H : binds (DeleteTodo (IntParam 1)))
    by (change (fits_int64 1); apply (bool_decide_unpack _); by vm_compute).
  split; [exact H|].
  exact (proj1 (service_status_codes _ seeded H)).
Defined.

(** X6: a request answered with an error status (400 or above) leaves the
    table exactly as it was. *)
Theorem failed_request_changes_nothing (req : request) (db : table) :
  (400 ≤ status_code (app req db).1)%Z → (app req db).2 = db.
Proof.
  route_cases req db;
    unfold HTTP_201_CREATED, HTTP_204_NO_CONTENT; try done; lia.
Qed.

(** X6 for a delete of a missing id on the seeded table. *)
Lemma failed_request_changes_nothing_seeded :
  (400 ≤ status_code (app (DeleteTodo (IntParam 9)) seeded).1)%Z
  ∧ (app (DeleteTodo (IntParam 9)) seeded).2 = seeded.
Proof.
  assert (H : (400 ≤ status_code (app (DeleteTodo (IntParam 9)) seeded).1)%Z)
    by (by vm_compute).
  split; [exact H|]. exact (failed_request_changes_nothing _ seeded H).
Defined.

(** ** Runs of requests *)

Section runs.
Implicit Types (db : table) (k : Z) (c : columns) (req : request)
  (reqs : list request).

Lemma positive_ids_final reqs db : positive_ids db → positive_ids (final reqs db).
Proof.
  revert db. induction reqs as [|req reqs IH]; intros db Hpos; [done|].
  rewrite final_cons. by apply IH, positive_ids_app.
Qed.

Lemma serve_cons req reqs db :
  serve (req :: reqs) db
  = ((app req db).1 :: (serve reqs (app req db).2).1,
     db :: (serve reqs (app req db).2).2).
Proof.
  cbn [serve]. destruct (app req db) as [resp db']. cbn [fst snd].
  by destruct (serve reqs db').
Qed.

(** A request other than a delete removes no key from the table. *)
Lemma app_keeps_key req db k :
  deletes [req] = 0 → is_Some (db !! k) → is_Some ((app req db).2 !! k).
Proof.
  intros Hd Hk. route_cases req db; try done.
  - destruct (decide (k = next_rowid db)) as [->|Hne].
    + rewrite lookup_insert_eq. eauto.
    + by rewrite lookup_insert_ne.
  - destruct (decide (k = n)) as [->|Hne].
    + rewrite lookup_insert_eq. eauto.
    + by rewrite lookup_insert_ne.
  - destruct (decide (k = n)) as [->|Hne].
    + rewrite lookup_insert_eq. eauto.
    + by rewrite lookup_insert_ne.
Qed.

Lemma final_keeps_key reqs db k :
  deletes reqs = 0 → is_Some (db !! k) → is_Some (final reqs db !! k).
Proof.
  revert db. induction reqs as [|req reqs IH]; intros db Hd Hk; [done|].
  rewrite final_cons. apply IH.
  - by destruct req.
  - apply app_keeps_key; [by destruct req|done].
Qed.

(** Without deletes, a key held at any point of a run is held at its end. *)
Lemma history_keeps_key reqs db db' k :
  deletes reqs = 0 → db' ∈ (serve reqs db).2 → is_Some (db' !! k) →
  is_Some (final reqs db !! k).
Proof.
  revert db. induction reqs as [|req reqs IH]; intros db Hd Hin Hk.
  - cbn in Hin. apply list_elem_of_singleton in Hin as ->. done.
  - rewrite serve_cons in Hin. cbn [snd] in Hin.
    apply elem_of_cons in Hin as [->|Hin].
    + by apply final_keeps_key.
    + rewrite final_cons. apply (IH _ ltac:(by destruct req) Hin Hk).
Qed.

Lemma size_app_bounds req db :
  size db + creates [req] ≤ size (app req db).2 + deletes [req]
  ∧ size (app req db).2 ≤ size db + creates [req].
Proof.
  route_cases req db; cbn [creates deletes];
    rewrite ?map_size_insert_None by apply next_rowid_fresh;
    rewrite ?map_size_insert_Some by eauto;
    rewrite ?map_size_delete_Some by eauto; lia.
Qed.
End runs.

(** X7: every row has a positive id after startup and any run of requests,
    provided that was so of the table startup found (an empty one, say);
    and the next create is then answered with a positive id. *)
Theorem ids_stay_positive (reqs : list request) (payload : TodoCreate) (db : table) :
  positive_ids db →
  positive_ids (final reqs (init_db db))
  ∧ ∃ t : TodoOut,
      (app (CreateTodo payload) (final reqs (init_db db))).1
      = mkResponse 201 (Todo t)
      ∧ (0 < out_id t)%Z.
Proof.
  intros Hpos.
  assert (positive_ids (final reqs (init_db db))) as Hfin
    by by apply positive_ids_final, positive_ids_init_db.
  split; [done|]. rewrite app_create. eexists. split; [done|].
  by apply positive_ids_next_rowid.
Qed.

(** X7 from an empty table. *)
Lemma ids_stay_positive_from_empty :
  positive_ids ∅
  ∧ positive_ids (final create_miss_toggle (init_db ∅)).
Proof.
  assert (H : positive_ids ∅) by (apply (bool_decide_unpack _); by vm_compute).
  split; [exact H|].
  exact (proj1 (ids_stay_positive create_miss_toggle buy_milk ∅ H)).
Defined.

(** X8: health checks, listings and gets never change the table: each
    request of a run made of these alone is answered from the table the run
    started with, and that table is the one left at the end. *)
Theorem reads_change_nothing (reqs : list request) (db : table) :
  forallb is_read reqs = true →
  final reqs db = db
  ∧ (serve reqs db).1 = (λ req, (app req db).1) <$> reqs.
Proof.
  induction reqs as [|req reqs IH]; intros Hr; [done|].
  cbn [forallb] in Hr. apply andb_true_iff in Hr as [Hreq Hrest].
  destruct (IH Hrest) as [IH1 IH2].
  assert ((app req db).2 = db) as Hsame.
  { destruct req as [| |[n|]| | | |]; try done.
    destruct (db !! n) as [c|] eqn:Hn.
    - by rewrite (app_get_hit _ _ c).
    - by rewrite app_get_miss. }
  rewrite final_cons, serve_cons, Hsame. cbn [fst]. by rewrite IH1, IH2.
Qed.

(** X8 on the seeded table. *)
Lemma reads_change_nothing_seeded :
  forallb is_read [HealthCheck; GetTodo (IntParam 1); ListTodos] = true
  ∧ final [HealthCheck; GetTodo (IntParam 1); ListTodos] seeded = seeded.
Proof.
  assert (H : forallb is_read [HealthCheck; GetTodo (IntParam 1); ListTodos] = true)
    by reflexivity.
  split; [exact H|]. exact (proj1 (reads_change_nothing _ seeded H)).
Defined.

(** X9: as long as a run has no delete and the keys stay below the largest
    key a row can have, the id a create is answered with is larger than
    every id the table has held at any point of the run, so it has not been
    seen before. *)
Theorem create_id_unseen_without_deletes
    (reqs : list request) (payload : TodoCreate) (db0 db : table) (k : Z) :
  deletes reqs = 0 → Forall rowids_below_max (serve reqs db0).2 →
  db ∈ (serve reqs db0).2 → is_Some (db !! k) →
  ∃ t : TodoOut,
    (service (CreateTodo payload) (final reqs db0)).1 = mkResponse 201 (Todo t)
    ∧ (k < out_id t)%Z.
Proof.
  intros Hd _ Hin Hk. rewrite service_no_id by done.
  rewrite app_create. eexists. split; [done|].
  cbn. eapply next_rowid_above, history_keeps_key; eauto.
Qed.

(** X9 on the seeded table: after a create and a toggle, row 2 of the first
    table is below the next id. *)
Lemma create_id_unseen_without_deletes_seeded :
  deletes [CreateTodo buy_milk; ToggleTodo (IntParam 1)] = 0
  ∧ Forall rowids_below_max
      (serve [CreateTodo buy_milk; ToggleTodo (IntParam 1)] seeded).2
  ∧ seeded ∈ (serve [CreateTodo buy_milk; ToggleTodo (IntParam 1)] seeded).2
  ∧ is_Some (seeded !! 2%Z)
  ∧ ∃ t : TodoOut,
      (service (CreateTodo buy_milk)
         (final [CreateTodo buy_milk; ToggleTodo (IntParam 1)] seeded)).1
      = mkResponse 201 (Todo t)
      ∧ (2 < out_id t)%Z.
Proof.
  assert (Hd : deletes [CreateTodo buy_milk; ToggleTodo (IntParam 1)] = 0)
    by reflexivity.
  assert (Hin : seeded ∈ (serve [CreateTodo buy_milk; ToggleTodo (IntParam 1)] seeded).2)
    by (apply list_elem_of_lookup; exists 0; by vm_compute).
  assert (Hk : is_Some (seeded !! 2%Z)) by (vm_compute; by eexists).
  assert (Hb : Forall rowids_below_max
                 (serve [CreateTodo buy_milk; ToggleTodo (IntParam 1)] seeded).2)
    by (apply (bool_decide_unpack _); by vm_compute).
  split; [exact Hd|]. split; [exact Hb|]. split; [exact Hin|]. split; [exact Hk|].
  exact (create_id_unseen_without_deletes _ buy_milk seeded seeded 2 Hd Hb Hin Hk).
Defined.

(** X10: creates served one after the other are answered with consecutive
    ids, starting from the one the first create gets, as long as these ids
    do not pass the largest key a row can have. *)
Theorem consecutive_creates_consecutive_ids (payloads : list TodoCreate) (db : table) :
  (next_rowid db + Z.of_nat (length payloads) ≤ MAX_ROWID + 1)%Z →
  (serve (CreateTodo <$> payloads) db).1
  = imap (λ i payload,
            mkResponse 201 (Todo (mkTodoOut (next_rowid db + Z.of_nat i)
                                    (create_title payload)
                                    (or_None (create_description payload)) false)))
         payloads.
Proof.
  revert db. induction payloads as [|payload payloads IH]; intros db Hmax; [done|].
  rewrite fmap_cons, serve_cons, imap_cons. cbn [fst]. f_equal.
  - rewrite app_create. cbn. by rewrite Z.add_0_r.
  - rewrite app_create. cbn [snd]. rewrite IH.
    + apply imap_ext. intros i p _. cbn.
      rewrite next_rowid_insert. do 3 f_equal. lia.
    + rewrite next_rowid_insert. cbn [length] in Hmax. lia.
Qed.

(** X10 on the seeded table: two creates get the ids 3 and 4. *)
Lemma consecutive_creates_consecutive_ids_seeded :
  (next_rowid seeded + Z.of_nat (length [buy_milk; buy_milk]) ≤ MAX_ROWID + 1)%Z
  ∧ (serve (CreateTodo <$> [buy_milk; buy_milk]) seeded).1
    = [ mkResponse 201 (Todo (mkTodoOut 3 "Buy milk" None false));
        mkResponse 201 (Todo (mkTodoOut 4 "Buy milk" None false)) ].
Proof.
  assert (H : (next_rowid seeded + Z.of_nat (length [buy_milk; buy_milk])
               ≤ MAX_ROWID + 1)%Z)
    by (apply (bool_decide_unpack _); by vm_compute).
  split; [exact H|].
  rewrite (consecutive_creates_consecutive_ids _ seeded H). by vm_compute.
Defined.

(** X11: as long as the keys are below the largest key a row can have,
    deleting the todo a create has just returned gives back the table as it
    was before the create, and the next create is answered with the same id
    again. *)
Theorem create_then_delete_restores (payload payload' : TodoCreate) (db : table) :
  rowids_below_max db →
  ∃ t : TodoOut,
    (service (CreateTodo payload) db).1 = mkResponse 201 (Todo t)
    ∧ service (DeleteTodo (IntParam (out_id t))) (service (CreateTodo payload) db).2
      = (mkResponse 204 Empty, db)
    ∧ (service (CreateTodo payload')
         (service (DeleteTodo (IntParam (out_id t)))
            (service (CreateTodo payload) db).2).2).1
      = mkResponse 201 (Todo (mkTodoOut (out_id t) (create_title payload')
                                (or_None (create_description payload')) false)).
Proof.
  intros Hdb. rewrite (service_no_id (CreateTodo payload)) by done.
  rewrite app_create. eexists. split; [done|]. cbn [snd model_validate load out_id id].
  assert (service (DeleteTodo (IntParam (next_rowid db)))
            (<[next_rowid db := Columns (create_title payload)
                 (or_None (create_description payload)) false]> db)
          = (mkResponse 204 Empty, db)) as Hdel.
  { rewrite (service_fits _ (next_rowid db)) by (done || by apply next_rowid_fits).
    rewrite (app_delete_hit _ _ _ (lookup_insert_eq _ _ _)).
    by rewrite delete_insert_id by apply next_rowid_fresh. }
  rewrite Hdel. split; [done|]. cbn [snd].
  rewrite service_no_id by done. by rewrite app_create.
Qed.

(** X11 on the seeded table: id 3 is given out, taken back and given out
    again. *)
Lemma create_then_delete_restores_seeded :
  rowids_below_max seeded
  ∧ ∃ t : TodoOut,
      (service (CreateTodo buy_milk) seeded).1 = mkResponse 201 (Todo t)
      ∧ service (DeleteTodo (IntParam (out_id t))) (service (CreateTodo buy_milk) seeded).2
        = (mkResponse 204 Empty, seeded).
Proof.
  assert (H : rowids_below_max seeded)
    by (apply (bool_decide_unpack _); by vm_compute).
  split; [exact H|].
  destruct (create_then_delete_restores buy_milk buy_milk seeded H) as (t & H1 & H2 & _).
  exists t. split; [exact H1|exact H2].
Defined.

(** X12: after any run, the number of rows is at most the number at the
    start plus the creates of the run, and at least that minus the deletes
    of the run (a delete that misses removes nothing). *)
Theorem row_count_bounds (reqs : list request) (db : table) :
  size db + creates reqs ≤ size (final reqs db) + deletes reqs
  ∧ size (final reqs db) ≤ size db + creates reqs.
Proof.
  revert db. induction reqs as [|req reqs IH]; intros db; [cbn; lia|].
  rewrite final_cons. specialize (IH (app req db).2).
  pose proof (size_app_bounds req db) as Hstep.
  assert (creates (req :: reqs) = creates [req] + creates reqs) as ->
    by (by destruct req).
  assert (deletes (req :: reqs) = deletes [req] + deletes reqs) as ->
    by (by destruct req).
  lia.
Qed.

(** ** The listing and the other routes *)

Section listing_laws.
Implicit Types (db : table) (k : Z) (c : columns) (t : TodoOut)
  (l : list TodoOut).

Lemma id_ascending_NoDup l : id_ascending l → NoDup l.
Proof.
  induction 1 as [|t l _ IH Ht]; constructor; [|done].
  intros Hin. rewrite Forall_forall in Ht. specialize (Ht t Hin). cbn in Ht. lia.
Qed.

(** The listing is the one list that holds exactly the rows of the table in
    ascending order of id. *)
Lemma listing_unique db l :
  id_ascending l → (∀ t, t ∈ l ↔ db !! out_id t = Some (row_of t)) →
  listing db = l.
Proof.
  intros Hl Hiff.
  apply (StronglySorted_unique_strong (λ a b, (out_id a < out_id b)%Z)).
  - intros; lia.
  - apply listing_ascending.
  - done.
  - apply NoDup_Permutation.
    + apply id_ascending_NoDup, listing_ascending.
    + by apply id_ascending_NoDup.
    + intros t. unfold listing. by rewrite elem_of_listing, Hiff.
Qed.

Lemma id_ascending_filter (P : TodoOut → Prop) `{!∀ t, Decision (P t)} l :
  id_ascending l → id_ascending (filter P l).
Proof.
  induction 1 as [|t l Hl IH Ht]; [constructor|].
  rewrite filter_cons. case_decide; [|done].
  constructor; [done|]. apply Forall_forall. intros t' [_ Hin]%list_elem_of_filter.
  rewrite Forall_forall in Ht. by apply Ht.
Qed.
End listing_laws.

(** X13: as long as the keys are below the largest key a row can have, a
    create puts its todo at the end of the listing: the listing after the
    create is the listing before it, followed by the todo the create
    returned. *)
Theorem create_appends_to_listing (payload : TodoCreate) (db : table) :
  rowids_below_max db →
  ∃ t : TodoOut,
    (service (CreateTodo payload) db).1 = mkResponse 201 (Todo t)
    ∧ (service ListTodos db).1 = mkResponse 200 (Todos (listing db))
    ∧ (service ListTodos (service (CreateTodo payload) db).2).1
      = mkResponse 200 (Todos (listing db ++ [t])).
Proof.
  intros _. rewrite !service_no_id by done.
  rewrite app_create. eexists. split; [done|]. split; [done|]. cbn [snd].
  rewrite app_list. cbn [fst]. do 2 f_equal.
  set (k := next_rowid db).
  set (c := Columns (create_title payload) (or_None (create_description payload)) false).
  apply listing_unique.
  - apply StronglySorted_app.
    split; [|split; [apply listing_ascending|repeat constructor]].
    intros t1 t2 Ht1%elem_of_listing Ht2%list_elem_of_singleton. subst t2. cbn.
    apply next_rowid_above. eauto.
  - intros t. rewrite elem_of_app, list_elem_of_singleton.
    unfold listing. rewrite elem_of_listing.
    destruct (decide (out_id t = k)) as [Hk|Hk].
    + rewrite Hk, lookup_insert_eq. unfold k at 1. rewrite next_rowid_fresh.
      split.
      * intros [?| ->]; [done|]. done.
      * intros [= Hc]. right. destruct t; cbn in *. by subst.
    + rewrite lookup_insert_ne by done. split; [|by left].
      intros [?| ->]; [done|]. by destruct Hk.
Qed.

(** X13 on the seeded table: the new todo is listed third. *)
Lemma create_appends_to_listing_seeded :
  rowids_below_max seeded
  ∧ (service ListTodos (service (CreateTodo buy_milk) seeded).2).1
    = mkResponse 200
        (Todos [ mkTodoOut 1 "Buy groceries" (Some "Milk, Bread, Eggs") false;
                 mkTodoOut 2 "Read a book" (Some "Finish reading 'Atomic Habits'") true;
                 mkTodoOut 3 "Buy milk" None false ]).
Proof.
  assert (H : rowids_below_max seeded)
    by (apply (bool_decide_unpack _); by vm_compute).
  split; [exact H|].
  destruct (create_appends_to_listing buy_milk seeded H) as (t & H1 & _ & H2).
  rewrite H2. assert (Ht : t = mkTodoOut 3 "Buy milk" None false).
  { assert ((service (CreateTodo buy_milk) seeded).1
            = mkResponse 201 (Todo (mkTodoOut 3 "Buy milk" None false))) as H3
      by (by vm_compute).
    rewrite H1 in H3. by injection H3. }
  rewrite Ht. by vm_compute.
Defined.

(** X14: a delete of an id in the table takes exactly that todo out of the
    listing: the listing after the delete is the listing before it without
    the item of that id, the other items in the same order. *)
Theorem delete_filters_listing (db : table) (k : Z) :
  is_Some (db !! k) →
  (app ListTodos (app (DeleteTodo (IntParam k)) db).2).1
  = mkResponse 200 (Todos (filter (λ t, out_id t ≠ k) (listing db))).
Proof.
  intros [c Hk]. rewrite (app_delete_hit _ _ c) by done. cbn [snd].
  rewrite app_list. cbn [fst]. do 2 f_equal.
  apply listing_unique.
  - apply id_ascending_filter, listing_ascending.
  - intros t. rewrite list_elem_of_filter. unfold listing.
    rewrite elem_of_listing.
    destruct (decide (out_id t = k)) as [Heq|Hne].
    + rewrite Heq, lookup_delete_eq. split; [by intros [? _]|done].
    + rewrite lookup_delete_ne by done. split; [by intros [_ ?]|done].
Qed.

(** X14 on the seeded table: deleting row 1 leaves row 2 listed. *)
Lemma delete_filters_listing_seeded :
  is_Some (seeded !! 1%Z)
  ∧ (app ListTodos (app (DeleteTodo (IntParam 1)) seeded).2).1
    = mkResponse 200
        (Todos [ mkTodoOut 2 "Read a book" (Some "Finish reading 'Atomic Habits'") true ]).
Proof.
  assert (H : is_Some (seeded !! 1%Z)) by (vm_compute; by eexists).
  split; [exact H|].
  rewrite (delete_filters_listing seeded 1 H). by vm_compute.
Defined.

(** X15: the listing and get-by-id agree: a todo is in the listing exactly
    when a get with its id is answered 200 with that todo. *)
Theorem listing_agrees_with_get (db : table) (t : TodoOut) :
  (app ListTodos db).1 = mkResponse 200 (Todos (listing db))
  ∧ (t ∈ listing db ↔
     (app (GetTodo (IntParam (out_id t))) db).1 = mkResponse 200 (Todo t)).
Proof.
  split; [done|]. unfold listing. rewrite elem_of_listing.
  destruct (db !! out_id t) as [c|] eqn:Hk.
  - rewrite (app_get_hit _ _ c) by done. cbn [fst]. split.
    + intros [= ->]. by destruct t.
    + intros [= Heq]. rewrite <-Heq. by destruct c.
  - rewrite app_get_miss by done. split; [done|]. by intros [=].
Qed.

(** ** Where an empty description can come from *)

Section descriptions.
Implicit Types (db : table) (c : columns) (req : request) (reqs : list request).

Lemma or_None_nonempty (d : option string) : or_None d ≠ Some "".
Proof.
  destruct d as [s|]; [|done]. unfold or_None. case_decide; congruence.
Qed.

Lemma no_empty_description_app req db :
  keeps_descriptions_nonempty req = true →
  no_empty_description db → no_empty_description (app req db).2.
Proof.
  intros Hreq Hdb. route_cases req db; try done.
  - apply map_Forall_insert_2; [|done]. apply or_None_nonempty.
  - apply map_Forall_insert_2; [|done]. cbn.
    by apply bool_decide_eq_true in Hreq.
  - apply map_Forall_insert_2; [|done]. by apply (Hdb n c).
  - by apply map_Forall_delete.
Qed.

Lemma no_empty_description_final reqs db :
  forallb keeps_descriptions_nonempty reqs = true →
  no_empty_description db → no_empty_description (final reqs db).
Proof.
  revert db. induction reqs as [|req reqs IH]; intros db Hreqs Hdb; [done|].
  cbn [forallb] in Hreqs. apply andb_true_iff in Hreqs as [Hreq Hrest].
  rewrite final_cons. by apply IH, no_empty_description_app.
Qed.

Lemma no_empty_description_init_db db :
  no_empty_description db → no_empty_description (init_db db).
Proof.
  intros Hdb. unfold init_db. case_decide; [|done].
  unfold add_all, samples, insert_row; cbn.
  by do 2 (apply map_Forall_insert_2; [done|]).
Qed.
End descriptions.

(** X16: only a replace can put the empty string into a description: if no
    row has an empty-string description when the service starts, none has
    one after startup and any run of requests in which no replace carries
    the empty string as description (creates with an empty description
    included). *)
Theorem empty_description_only_by_replace (reqs : list request) (db : table) :
  no_empty_description db →
  forallb keeps_descriptions_nonempty reqs = true →
  no_empty_description (final reqs (init_db db)).
Proof.
  intros Hdb Hreqs.
  by apply no_empty_description_final, no_empty_description_init_db.
Qed.

(** X16 from an empty table, with a create that carries the empty string. *)
Lemma empty_description_only_by_replace_from_empty :
  no_empty_description ∅
  ∧ forallb keeps_descriptions_nonempty
      [CreateTodo (mkTodoCreate "Buy milk" (Some "")); ToggleTodo (IntParam 3)] = true
  ∧ no_empty_description
      (final [CreateTodo (mkTodoCreate "Buy milk" (Some "")); ToggleTodo (IntParam 3)]
             (init_db ∅)).
Proof.
  assert (H : no_empty_description ∅)
    by (apply (bool_decide_unpack _); by vm_compute).
  assert (Hr : forallb keeps_descriptions_nonempty
      [CreateTodo (mkTodoCreate "Buy milk" (Some "")); ToggleTodo (IntParam 3)] = true)
    by reflexivity.
  split; [exact H|]. split; [exact Hr|].
  exact (empty_description_only_by_replace _ ∅ H Hr).
Defined.
